(** * data_transfer.py: export a table to CSV, import a CSV into a table

    A shallow embedding of [src/data_transfer.py].  The script's own code
    ([get_db_connection], [export_to_csv], [import_from_csv], [main]) is
    translated statement by statement into a small state-and-exception
    monad.  The libraries it calls (pandas, SQLAlchemy, logging) are not
    code of the repository; they are given an executable model over a
    world made of one database, one file system, the log sink, the trace
    of library calls and a fault plan that lets the environment make any
    library call raise any exception.  What SQLAlchemy makes of a URL and
    what pandas reads back from the text it wrote are the libraries' own
    business: the world gives them, and the properties hold for all. *)

From Stdlib Require Import ZArith DecimalString.
From stdpp Require Import base strings list gmap.

Local Open Scope Z_scope.

(** ** Tabular data *)

(** A scalar value of a dataset: a null, a number or a string. *)
Inductive Scalar : Type :=
  | Null
  | Int (z : Z)
  | Str (s : string).

#[global] Instance Scalar_eq_dec : EqDecision Scalar.
Proof. solve_decision. Defined.

(** A pandas [DataFrame]: the column labels, and the rows in order.  The
    rows are kept apart from the labels, as the frame's index is, so a
    frame with no column still has a length. *)
Record DataFrame : Type := mkDataFrame {
  columns : list string;
  values : list (list Scalar)
}.

(** [len(df)]. *)
Definition len (df : DataFrame) : nat := length (values df).

(** ** Exceptions *)

(** The exception classes the script names, their bases, and the classes
    the modelled library calls raise by themselves.  Only subclasses of
    [Exception] are modelled: [KeyboardInterrupt] and [SystemExit] are
    not library failures. *)
Inductive ExnClass : Type :=
  | Exception
  | OSError
  | FileNotFoundError
  | ValueError
  | EmptyDataError
  | ParserError
  | KeyError
  | DatabaseError
  | IntegrityError
  | OperationalError
  | ProgrammingError.

#[global] Instance ExnClass_eq_dec : EqDecision ExnClass.
Proof. solve_decision. Defined.

(** Method resolution order: the class followed by its bases. *)
Definition mro (c : ExnClass) : list ExnClass :=
  match c with
  | Exception => [Exception]
  | OSError => [OSError; Exception]
  | FileNotFoundError => [FileNotFoundError; OSError; Exception]
  | ValueError => [ValueError; Exception]
  | EmptyDataError => [EmptyDataError; ValueError; Exception]
  | ParserError => [ParserError; ValueError; Exception]
  | KeyError => [KeyError; Exception]
  | DatabaseError => [DatabaseError; Exception]
  | IntegrityError => [IntegrityError; DatabaseError; Exception]
  | OperationalError => [OperationalError; DatabaseError; Exception]
  | ProgrammingError => [ProgrammingError; DatabaseError; Exception]
  end.

(** An exception object: its class and the text [str(e)] gives. *)
Record Exn : Type := mkExn {
  exn_class : ExnClass;
  exn_text : string
}.

Definition isinstance (e : Exn) (c : ExnClass) : bool :=
  bool_decide (c ∈ mro (exn_class e)).

(** ** The world the script runs in *)

(** A database table: its column names, its rows (one cell per column),
    and the next value of the sequence behind its [id] column. *)
Record Table : Type := mkTable {
  t_columns : list string;
  t_rows : list (list Scalar);
  t_next_id : Z
}.

(** A file, by what pandas' CSV reader makes of it: nothing to parse, text
    the tokenizer rejects, or a header line and its records. *)
Inductive File : Type :=
  | EmptyFile
  | Unparsable (raw : string)
  | CsvFile (header : list string) (records : list (list Scalar)).

Inductive Level : Type := INFO | ERROR.

#[global] Instance Level_eq_dec : EqDecision Level.
Proof. solve_decision. Defined.

(** A log record, without its timestamp. *)
Definition LogRecord : Type := (Level * string)%type.

(** The one SQL statement the script issues, [DELETE FROM <table_name>;],
    kept as its syntax tree; the table name is taken as an identifier. *)
Inductive Stmt : Type :=
  | DeleteFrom (table_name : string).

Definition sql_text (s : Stmt) : string :=
  match s with
  | DeleteFrom table_name => "DELETE FROM " +:+ table_name +:+ ";"
  end.

(** The library calls that reach the database or the file system. *)
Inductive Event : Type :=
  | EvConnect (url : string)
  | EvExecute (s : Stmt)
  | EvCommit
  | EvReadSqlTable (table_name : string)
  | EvToSql (table_name : string)
  | EvReadCsv (path : string)
  | EvToCsv (path : string).

#[global] Instance Stmt_eq_dec : EqDecision Stmt.
Proof. solve_decision. Defined.

#[global] Instance Event_eq_dec : EqDecision Event.
Proof. solve_decision. Defined.

(** Does the call change what the database holds? *)
Definition mutating (ev : Event) : bool :=
  match ev with
  | EvExecute (DeleteFrom _) | EvCommit | EvToSql _ => true
  | EvConnect _ | EvReadSqlTable _ | EvReadCsv _ | EvToCsv _ => false
  end.

(** [db] is the committed state of the database the engine points at,
    [session] the working copy of the transaction open on the script's
    connection, [fs] the files by path, [log] the records emitted so far,
    [trace] the library calls made so far.  [fault_plan k] is the
    environment's choice for the library call made when [k] calls came
    before it: [Some e] makes that call raise [e] without effect.
    [url_error u] is what [create_engine] raises on the URL [u], if it
    cannot make an engine of it (a port that is no number, a URL it
    cannot parse).  [csv_view df] is the rows [pd.read_csv] makes out of
    the text [to_csv] writes for the frame [df]: in that text an empty
    string and a null are the same empty field, and a string of digits is
    a number. *)
Record World : Type := mkWorld {
  db : gmap string Table;
  session : option (gmap string Table);
  fs : gmap string File;
  log : list LogRecord;
  trace : list Event;
  fault_plan : nat → option Exn;
  url_error : string → option Exn;
  csv_view : DataFrame → list (list Scalar)
}.

Definition set_db (d : gmap string Table) (w : World) : World :=
  mkWorld d (session w) (fs w) (log w) (trace w) (fault_plan w)
    (url_error w) (csv_view w).
Definition set_session (s : option (gmap string Table)) (w : World) : World :=
  mkWorld (db w) s (fs w) (log w) (trace w) (fault_plan w)
    (url_error w) (csv_view w).
Definition set_fs (f : gmap string File) (w : World) : World :=
  mkWorld (db w) (session w) f (log w) (trace w) (fault_plan w)
    (url_error w) (csv_view w).
Definition set_log (l : list LogRecord) (w : World) : World :=
  mkWorld (db w) (session w) (fs w) l (trace w) (fault_plan w)
    (url_error w) (csv_view w).
Definition set_trace (t : list Event) (w : World) : World :=
  mkWorld (db w) (session w) (fs w) (log w) t (fault_plan w)
    (url_error w) (csv_view w).

(** ** The monad of the script: state and exceptions *)

Inductive Outcome (A : Type) : Type :=
  | Return (a : A)
  | Raise (e : Exn).
Arguments Return {A} a.
Arguments Raise {A} e.

Definition M (A : Type) : Type := World → Outcome A * World.

#[global] Instance M_ret : MRet M := λ A a w, (Return a, w).

#[global] Instance M_bind : MBind M := λ A B f m w,
  match m w with
  | (Return a, w1) => f a w1
  | (Raise e, w1) => (Raise e, w1)
  end.

Definition raise {A : Type} (e : Exn) : M A := λ w, (Raise e, w).

(** [try: m  except c1: h1 ... except cn: hn]: the first handler whose
    class the exception is an instance of runs; with none, it goes on up. *)
Fixpoint dispatch {A : Type} (handlers : list (ExnClass * (Exn → M A)))
    (e : Exn) : M A :=
  match handlers with
  | [] => raise e
  | (c, h) :: rest => if isinstance e c then h e else dispatch rest e
  end.

Definition try_except {A : Type} (m : M A)
    (handlers : list (ExnClass * (Exn → M A))) : M A := λ w,
  match m w with
  | (Return a, w1) => (Return a, w1)
  | (Raise e, w1) => dispatch handlers e w1
  end.

(** [try: m  finally: c]. *)
Definition try_finally {A : Type} (m : M A) (c : M unit) : M A := λ w,
  match m w with
  | (o, w1) => match c w1 with
               | (Return _, w2) => (o, w2)
               | (Raise e, w2) => (Raise e, w2)
               end
  end.

(** A library call: it is recorded in the trace, and the environment may
    make it fail before it has any effect. *)
Definition lib_call {A : Type} (ev : Event) (body : M A) : M A := λ w,
  let w1 := set_trace (trace w ++ [ev]) w in
  match fault_plan w (length (trace w)) with
  | Some e => (Raise e, w1)
  | None => body w1
  end.

(** ** logging *)

Definition logger_info (msg : string) : M unit := λ w,
  (Return tt, set_log (log w ++ [(INFO, msg)]) w).

Definition logger_error (msg : string) : M unit := λ w,
  (Return tt, set_log (log w ++ [(ERROR, msg)]) w).

(** [str(e)] in an f-string. *)
Definition str (e : Exn) : string := exn_text e.

(** [str(n)] for a length. *)
Definition str_nat (n : nat) : string := NilZero.string_of_uint (Nat.to_uint n).

(** ** pandas, as far as the script uses it *)

Inductive ErrorsMode : Type := ErrorsRaise | ErrorsIgnore.

(** Which columns survive a drop of [labels]. *)
Definition keep_mask (labels cols : list string) : list bool :=
  map (λ c, bool_decide (c ∉ labels)) cols.

(** The entries of [l] at the positions [mask] keeps. *)
Fixpoint select {A : Type} (mask : list bool) (l : list A) : list A :=
  match mask, l with
  | b :: mask', x :: l' => if b then x :: select mask' l' else select mask' l'
  | _, _ => []
  end.

(** The frame without the columns carrying one of [labels]. *)
Definition drop_columns (df : DataFrame) (labels : list string) : DataFrame :=
  let mask := keep_mask labels (columns df) in
  mkDataFrame (select mask (columns df)) (map (select mask) (values df)).

(** [df.drop(columns=labels, errors=..., inplace=True)]: every column
    carrying one of the labels goes; a label that names no column is a
    [KeyError] unless [errors='ignore']. *)
Definition drop (df : DataFrame) (labels : list string) (errors : ErrorsMode)
    : M DataFrame :=
  match errors, filter (λ l, l ∉ columns df) labels with
  | ErrorsRaise, missing :: _ =>
      raise (mkExn KeyError ("['" +:+ missing +:+ "'] not found in axis"))
  | _, _ => mret (drop_columns df labels)
  end.

(** What [to_csv] writes: a header line with the column names, then the
    rows; with [index=True] a leading unnamed column carries the row
    numbers.  A file being kept by what the reader makes of it, the
    records are the rows as they read back from the text, [view df]. *)
Definition csv_of (view : DataFrame → list (list Scalar)) (df : DataFrame)
    (index : bool) : File :=
  if index
  then CsvFile ("" :: columns df)
               (imap (λ i r, Int (Z.of_nat i) :: r) (view df))
  else CsvFile (columns df) (view df).

(** [df.to_csv(path, index=...)]: the file at [path] is replaced. *)
Definition to_csv (df : DataFrame) (path : string) (index : bool) : M unit :=
  lib_call (EvToCsv path) (λ w,
    (Return tt, set_fs (<[path := csv_of (csv_view w) df index]> (fs w)) w)).

(** [pd.read_csv(path)]: no file is a [FileNotFoundError], a file without
    any column an [EmptyDataError], text that is not CSV a [ParserError]. *)
Definition read_csv (path : string) : M DataFrame :=
  lib_call (EvReadCsv path) (λ w,
    match fs w !! path with
    | None =>
        (Raise (mkExn FileNotFoundError
                  ("No such file or directory: '" +:+ path +:+ "'")), w)
    | Some EmptyFile | Some (CsvFile [] _) =>
        (Raise (mkExn EmptyDataError "No columns to parse from file"), w)
    | Some (Unparsable _) =>
        (Raise (mkExn ParserError "Error tokenizing data"), w)
    | Some (CsvFile header records) =>
        (Return (mkDataFrame header records), w)
    end).

(** ** SQLAlchemy and pandas' SQL bridge *)

Record Engine : Type := mkEngine { url : string }.

Record Connection : Type := mkConnection { conn_engine : Engine }.

(** [create_engine(url)] parses the URL and records it; nothing is
    contacted.  A URL it cannot make an engine of is an exception. *)
Definition create_engine (u : string) : M Engine := λ w,
  match url_error w u with
  | Some e => (Raise e, w)
  | None => (Return (mkEngine u), w)
  end.

(** [engine.connect()]: a fresh connection, no transaction open on it. *)
Definition connect (engine : Engine) : M Connection :=
  lib_call (EvConnect (url engine)) (λ w,
    (Return (mkConnection engine), set_session None w)).

(** Leaving the [with] block closes the connection; what was not
    committed is rolled back. *)
Definition close (connection : Connection) : M unit := λ w,
  (Return tt, set_session None w).

(** [with engine.connect() as connection: body]. *)
Definition with_connect {A : Type} (engine : Engine)
    (body : Connection → M A) : M A :=
  connection ← connect engine;
  try_finally (body connection) (close connection).

Definition clear_rows (T : Table) : Table :=
  mkTable (t_columns T) [] (t_next_id T).

(** [connection.execute(text(...))]: the statement runs in the
    connection's transaction, begun on first use from the committed
    state. *)
Definition execute (connection : Connection) (s : Stmt) : M unit :=
  lib_call (EvExecute s) (λ w,
    let d := default (db w) (session w) in
    match s with
    | DeleteFrom table_name =>
        match d !! table_name with
        | Some T =>
            (Return tt,
             set_session (Some (<[table_name := clear_rows T]> d)) w)
        | None =>
            (Raise (mkExn ProgrammingError
                      ("relation " +:+ table_name +:+ " does not exist")),
             set_session (Some d) w)
        end
    end).

(** [connection.commit()]. *)
Definition commit (connection : Connection) : M unit :=
  lib_call EvCommit (λ w,
    match session w with
    | Some d => (Return tt, set_session None (set_db d w))
    | None => (Return tt, w)
    end).

(** [pd.read_sql_table(table_name, engine)]: the whole table. *)
Definition read_sql_table (table_name : string) (engine : Engine)
    : M DataFrame :=
  lib_call (EvReadSqlTable table_name) (λ w,
    match db w !! table_name with
    | Some T => (Return (mkDataFrame (t_columns T) (t_rows T)), w)
    | None =>
        (Raise (mkExn ValueError ("Table " +:+ table_name +:+ " not found")),
         w)
    end).

(** Position of the first [c] in [cols]. *)
Fixpoint index_of (c : string) (cols : list string) : option nat :=
  match cols with
  | [] => None
  | c' :: rest => if decide (c' = c) then Some 0%nat else S <$> index_of c rest
  end.

(** The table row an [INSERT] naming the columns [dfcols] builds from the
    values [r]: a table column the statement names takes its value, the
    [id] column left out takes the next sequence value [k], any other
    column left out is null. *)
Definition insert_row (cols : list string) (k : Z) (dfcols : list string)
    (r : list Scalar) : list Scalar :=
  map (λ c, match index_of c dfcols with
            | Some j => default Null (r !! j)
            | None => if decide (c = "id") then Int k else Null
            end) cols.

Definition insert_rows (cols : list string) (k : Z) (df : DataFrame)
    : list (list Scalar) :=
  imap (λ i r, insert_row cols (k + Z.of_nat i) (columns df) r) (values df).

(** The table after the rows of [df] were appended; the sequence moves on
    when it supplied the [id] values. *)
Definition append_frame (T : Table) (df : DataFrame) : Table :=
  mkTable (t_columns T)
    (t_rows T ++ insert_rows (t_columns T) (t_next_id T) df)
    (if bool_decide ("id" ∈ columns df) then t_next_id T
     else t_next_id T + Z.of_nat (len df)).

(** [df.to_sql(table_name, engine, if_exists='append', index=False)]: the
    rows are appended in one transaction; a table that does not exist is
    created from the frame; a frame column the table lacks is an error. *)
Definition to_sql (df : DataFrame) (table_name : string) (engine : Engine)
    : M unit :=
  lib_call (EvToSql table_name) (λ w,
    match db w !! table_name with
    | None =>
        (Return tt,
         set_db (<[table_name := mkTable (columns df) (values df) 1]> (db w)) w)
    | Some T =>
        if forallb (λ c, bool_decide (c ∈ t_columns T)) (columns df)
        then
          (Return tt, set_db (<[table_name := append_frame T df]> (db w)) w)
        else
          (Raise (mkExn ProgrammingError
                    ("column of relation " +:+ table_name
                     +:+ " does not exist")), w)
    end).

(** ** The script *)

(** [get_db_connection] *)
Definition get_db_connection (db_user db_password db_host db_port db_name
    : string) : M Engine :=
  create_engine ("postgresql://" +:+ db_user +:+ ":" +:+ db_password +:+ "@"
                 +:+ db_host +:+ ":" +:+ db_port +:+ "/" +:+ db_name).

(** The [try] block of [export_to_csv]. *)
Definition export_try (engine : Engine) (table_name csv_file_path : string)
    : M unit :=
  df ← read_sql_table table_name engine;
  df ← drop df ["id"] ErrorsIgnore;
  to_csv df csv_file_path false;;
  logger_info ("Data exported successfully to " +:+ csv_file_path +:+ ".").

(** [export_to_csv] *)
Definition export_to_csv (engine : Engine) (table_name csv_file_path : string)
    : M unit :=
  try_except (export_try engine table_name csv_file_path)
    [(Exception, λ e, logger_error ("Error exporting data: " +:+ str e))].

(** The [try] block of [import_from_csv]. *)
Definition import_try (engine : Engine) (table_name csv_file_path : string)
    : M unit :=
  with_connect engine (λ connection,
    execute connection (DeleteFrom table_name);;
    commit connection;;
    logger_info "Table cleared successfully.");;
  df ← read_csv csv_file_path;
  df ← drop df ["id"] ErrorsIgnore;
  to_sql df table_name engine;;
  logger_info ("Data uploaded successfully! " +:+ str_nat (len df)
               +:+ " records imported.").

(** The [except] clauses of [import_from_csv], in order. *)
Definition import_handlers (csv_file_path : string)
    : list (ExnClass * (Exn → M unit)) :=
  [ (FileNotFoundError,
      λ _, logger_error ("The file " +:+ csv_file_path +:+ " was not found."));
    (EmptyDataError, λ _, logger_error "The file is empty.");
    (ParserError, λ _, logger_error "The file could not be parsed.");
    (IntegrityError,
      λ e, logger_error ("Integrity error during import: " +:+ str e));
    (OperationalError,
      λ e, logger_error ("Database connection error: " +:+ str e));
    (Exception, λ e, logger_error ("Error importing data: " +:+ str e)) ].

(** [import_from_csv] *)
Definition import_from_csv (engine : Engine)
    (table_name csv_file_path : string) : M unit :=
  try_except (import_try engine table_name csv_file_path)
    (import_handlers csv_file_path).

(** The namespace [parse_args] returns.  [operation] is one of the two
    choices; [--csv_file] is optional. *)
Inductive Operation : Type := OpExport | OpImport.

Record Args : Type := mkArgs {
  arg_operation : Operation;
  arg_table_name : string;
  arg_csv_file : option string;
  arg_db_user : string;
  arg_db_password : string;
  arg_db_host : string;
  arg_db_port : string;
  arg_db_name : string
}.

(** Truth value of an optional string: [None] and [''] are false. *)
Definition truthy (s : option string) : bool :=
  match s with
  | None => false
  | Some s' => negb (bool_decide (s' = ""))
  end.

(** [main], after [parser.parse_args()]. *)
Definition main (args : Args) : M unit :=
  engine ← get_db_connection (arg_db_user args) (arg_db_password args)
             (arg_db_host args) (arg_db_port args) (arg_db_name args);
  match arg_operation args with
  | OpExport =>
      export_to_csv engine (arg_table_name args)
        (arg_table_name args +:+ ".csv")
  | OpImport =>
      if negb (truthy (arg_csv_file args))
      then logger_error "CSV file path is required for import."
      else import_from_csv engine (arg_table_name args)
             (default "" (arg_csv_file args))
  end.

(** Exit status of the process running [main()]: an exception that leaves
    [main] ends the interpreter with status 1. *)
Definition exit_status (o : Outcome unit) : Z :=
  match o with
  | Return _ => 0
  | Raise _ => 1
  end.

(** ** A sample world: the [orders] table of the scenarios *)

Definition orders : Table :=
  mkTable ["id"; "sku"; "qty"] [[Int 1; Str "X1"; Int 5]] 2.

Definition no_fault : nat → option Exn := λ _, None.

(** Every URL makes an engine; every cell reads back as it was written. *)
Definition any_url : string → option Exn := λ _, None.

Definition same_cells : DataFrame → list (list Scalar) := values.

Definition world0 : World :=
  mkWorld {["orders" := orders]} None ∅ [] [] no_fault any_url same_cells.

Definition engine0 : Engine := mkEngine "postgresql://u:p@localhost:5432/mydb".

Definition args_export : Args :=
  mkArgs OpExport "orders" None "u" "p" "localhost" "5432" "mydb".

Definition args_import (csv_file : option string) : Args :=
  mkArgs OpImport "orders" csv_file "u" "p" "localhost" "5432" "mydb".

(** ** Vocabulary of the properties *)

(** The failure categories of [import_from_csv], one per [except] clause. *)
Inductive Category : Type :=
  | FileMissing
  | FileEmpty
  | FileUnparsable
  | IntegrityViolation
  | DatabaseFailure
  | OtherFailure.

#[global] Instance Category_eq_dec : EqDecision Category.
Proof. solve_decision. Defined.

(** The category of an exception: the first [except] clause that takes it. *)
Definition category_of (e : Exn) : Category :=
  if isinstance e FileNotFoundError then FileMissing
  else if isinstance e EmptyDataError then FileEmpty
  else if isinstance e ParserError then FileUnparsable
  else if isinstance e IntegrityError then IntegrityViolation
  else if isinstance e OperationalError then DatabaseFailure
  else OtherFailure.

Definition failure_message (c : Category) (csv_file_path text : string)
    : string :=
  match c with
  | FileMissing => "The file " +:+ csv_file_path +:+ " was not found."
  | FileEmpty => "The file is empty."
  | FileUnparsable => "The file could not be parsed."
  | IntegrityViolation => "Integrity error during import: " +:+ text
  | DatabaseFailure => "Database connection error: " +:+ text
  | OtherFailure => "Error importing data: " +:+ text
  end.

(** The two halves of [import_try]: the [with] block that clears the
    table, and the load that follows it. *)
Definition clear_block (engine : Engine) (table_name : string) : M unit :=
  with_connect engine (λ connection,
    execute connection (DeleteFrom table_name);;
    commit connection;;
    logger_info "Table cleared successfully.").

Definition load_block (engine : Engine) (table_name csv_file_path : string)
    : M unit :=
  df ← read_csv csv_file_path;
  df ← drop df ["id"] ErrorsIgnore;
  to_sql df table_name engine;;
  logger_info ("Data uploaded successfully! " +:+ str_nat (len df)
               +:+ " records imported.").

(** The library calls of an import that runs to its end, in order. *)
Definition import_calls (engine : Engine) (table_name csv_file_path : string)
    : list Event :=
  [EvConnect (url engine); EvExecute (DeleteFrom table_name); EvCommit;
   EvReadCsv csv_file_path; EvToSql table_name].


(** The environment lets the next [k] library calls through. *)
Definition no_fault_for (k : nat) (w : World) : Prop :=
  ∀ i, (i < k)%nat → fault_plan w (length (trace w) + i) = None.




(** A table as SQL has it: distinct column names, one cell per column. *)
Definition table_wf (T : Table) : Prop :=
  NoDup (t_columns T) ∧
  Forall (λ r, length r = length (t_columns T)) (t_rows T).


(** The world a successful clearing of [table_name] leaves. *)
Definition cleared_world (engine : Engine) (table_name : string) (T : Table)
    (w : World) : World :=
  mkWorld (<[table_name := clear_rows T]> (db w)) None (fs w)
    (log w ++ [(INFO, "Table cleared successfully.")])
    (trace w ++ [EvConnect (url engine); EvExecute (DeleteFrom table_name);
                 EvCommit])
    (fault_plan w) (url_error w) (csv_view w).

(** The world a successful load of the frame [df] into the table [T]
    leaves. *)
Definition loaded_world (table_name csv_file_path : string) (T : Table)
    (df : DataFrame) (w : World) : World :=
  mkWorld (<[table_name := append_frame T df]> (db w)) (session w) (fs w)
    (log w ++ [(INFO, "Data uploaded successfully! " +:+ str_nat (len df)
                      +:+ " records imported.")])
    (trace w ++ [EvReadCsv csv_file_path; EvToSql table_name])
    (fault_plan w) (url_error w) (csv_view w).

(** The world a successful export of the table [T] leaves. *)
Definition exported_world (table_name csv_file_path : string) (T : Table)
    (w : World) : World :=
  mkWorld (db w) (session w)
    (<[csv_file_path :=
         csv_of (csv_view w)
           (drop_columns (mkDataFrame (t_columns T) (t_rows T)) ["id"])
           false]> (fs w))
    (log w ++ [(INFO, "Data exported successfully to " +:+ csv_file_path
                      +:+ ".")])
    (trace w ++ [EvReadSqlTable table_name; EvToCsv csv_file_path])
    (fault_plan w) (url_error w) (csv_view w).

(** The namespace with another value for [--csv_file]. *)
Definition with_csv_file (csv_file : option string) (args : Args) : Args :=
  mkArgs (arg_operation args) (arg_table_name args) csv_file
    (arg_db_user args) (arg_db_password args) (arg_db_host args)
    (arg_db_port args) (arg_db_name args).

(** The library calls a run made: what it added to the trace. *)
Definition calls_of (w w' : World) : list Event :=
  skipn (length (trace w)) (trace w').

(** The records an import logs. *)
Definition cleared_record : LogRecord := (INFO, "Table cleared successfully.").

Definition file_not_found_record (csv_file_path : string) : LogRecord :=
  (ERROR, "The file " +:+ csv_file_path +:+ " was not found.").

(** A world where the database is down: every library call raises. *)
Definition world_down (e : Exn) : World :=
  mkWorld {["orders" := orders]} None ∅ [] [] (λ _, Some e) any_url same_cells.

(** The world [world0] with a file at [path], and a fault at call [k]. *)
Definition world_with (path : string) (f : File) (k : nat) (e : Exn) : World :=
  mkWorld {["orders" := orders]} None {[path := f]} [] []
    (λ i, if decide (i = k) then Some e else None) any_url same_cells.


(** The engine [main] builds from its arguments, and what it does once
    it has it. *)
Definition main_engine (args : Args) : M Engine :=
  get_db_connection (arg_db_user args) (arg_db_password args)
    (arg_db_host args) (arg_db_port args) (arg_db_name args).

Definition main_operation (engine : Engine) (args : Args) : M unit :=
  match arg_operation args with
  | OpExport =>
      export_to_csv engine (arg_table_name args)
        (arg_table_name args +:+ ".csv")
  | OpImport =>
      if negb (truthy (arg_csv_file args))
      then logger_error "CSV file path is required for import."
      else import_from_csv engine (arg_table_name args)
             (default "" (arg_csv_file args))
  end.

(** Arguments whose port is no number, and a world where [create_engine]
    refuses the URL they make, as SQLAlchemy does when it reads the port. *)
Definition args_bad_port (operation : Operation) (csv_file : option string)
    : Args :=
  mkArgs operation "orders" csv_file "u" "p" "localhost" "abc" "mydb".

Definition strict_url : string → option Exn := λ u,
  if decide (u = "postgresql://u:p@localhost:abc/mydb")
  then Some (mkExn ValueError "invalid literal for int() with base 10: 'abc'")
  else None.

Definition world_strict : World :=
  mkWorld {["orders" := orders]} None ∅ [] [] no_fault strict_url same_cells.




(** C5, as the specification words it: an import without [--csv_file]
    logs the missing-path error, reaches no database and leaves it as it
    was. *)
Definition missing_csv_file_is_logged (args : Args) (w : World) : Prop :=
  arg_operation args = OpImport → arg_csv_file args = None →
  (ERROR, "CSV file path is required for import.") ∈ log (main args w).2
  ∧ calls_of w (main args w).2 = []
  ∧ db (main args w).2 = db w.

(** C10, as the specification words it: an import with [--csv_file '']
    goes as one without the flag: the missing-path error is logged and no
    database is reached. *)
Definition empty_csv_file_is_logged (args : Args) (w : World) : Prop :=
  arg_operation args = OpImport → arg_csv_file args = Some "" →
  main args w = main (with_csv_file None args) w
  ∧ (ERROR, "CSV file path is required for import.") ∈ log (main args w).2
  ∧ calls_of w (main args w).2 = []
  ∧ db (main args w).2 = db w.


(** * Properties *)

(** ** Exceptions and handlers *)

(** Two worlds with the same fields are the same. *)
Lemma world_eq (w1 w2 : World) :
  db w1 = db w2 → session w1 = session w2 → fs w1 = fs w2 →
  log w1 = log w2 → trace w1 = trace w2 → fault_plan w1 = fault_plan w2 →
  url_error w1 = url_error w2 → csv_view w1 = csv_view w2 → w1 = w2.
Proof. destruct w1, w2; simpl; intros; by subst. Qed.

(** Closes an equation between two runs that differ in how the trace is
    bracketed. *)
Ltac same_world :=
  f_equal; apply world_eq; simpl; rewrite <- ?app_assoc; done.

Lemma isinstance_Exception (e : Exn) : isinstance e Exception = true.
Proof. destruct e as [c s]; destruct c; reflexivity. Qed.

(** Unfolds a run of the script down to the library model. *)
Ltac unfold_run :=
  unfold export_to_csv, export_try, import_from_csv, import_try,
    with_connect, try_except, try_finally, read_sql_table, to_csv, read_csv,
    to_sql, connect, close, execute, commit, drop, lib_call, logger_info,
    logger_error, raise, mbind, M_bind, mret, M_ret in *.

Lemma dispatch_import_handlers (p : string) (e : Exn) (w : World) :
  dispatch (import_handlers p) e w =
  (Return tt,
   set_log (log w ++ [(ERROR, failure_message (category_of e) p (str e))]) w).
Proof.
  unfold import_handlers, category_of; simpl.
  repeat (case_match; [reflexivity|]).
  by rewrite isinstance_Exception in *.
Qed.

Lemma import_from_csv_raise engine t p w e w1 :
  import_try engine t p w = (Raise e, w1) →
  import_from_csv engine t p w =
  (Return tt,
   set_log (log w1 ++ [(ERROR, failure_message (category_of e) p (str e))]) w1).
Proof.
  intros H. unfold import_from_csv, try_except. rewrite H.
  apply dispatch_import_handlers.
Qed.

Lemma import_from_csv_return engine t p w w1 :
  import_try engine t p w = (Return tt, w1) →
  import_from_csv engine t p w = (Return tt, w1).
Proof. intros H. unfold import_from_csv, try_except. by rewrite H. Qed.

Lemma export_to_csv_raise engine t p w e w1 :
  export_try engine t p w = (Raise e, w1) →
  export_to_csv engine t p w =
  (Return tt, set_log (log w1 ++ [(ERROR, "Error exporting data: " +:+ str e)]) w1).
Proof.
  intros H. unfold export_to_csv, try_except. rewrite H. simpl.
  by rewrite isinstance_Exception.
Qed.

Lemma export_to_csv_return engine t p w w1 :
  export_try engine t p w = (Return tt, w1) →
  export_to_csv engine t p w = (Return tt, w1).
Proof. intros H. unfold export_to_csv, try_except. by rewrite H. Qed.

Lemma outcome_unit_cases (o : Outcome unit) : o = Return tt ∨ ∃ e, o = Raise e.
Proof. destruct o as [[]|e]; eauto. Qed.

Lemma export_to_csv_returns engine t p w :
  (export_to_csv engine t p w).1 = Return tt.
Proof.
  destruct (export_try engine t p w) as [o w1] eqn:E.
  destruct (outcome_unit_cases o) as [->|[e ->]].
  - by rewrite (export_to_csv_return _ _ _ _ _ E).
  - by rewrite (export_to_csv_raise _ _ _ _ _ _ E).
Qed.

Lemma import_from_csv_returns engine t p w :
  (import_from_csv engine t p w).1 = Return tt.
Proof.
  destruct (import_try engine t p w) as [o w1] eqn:E.
  destruct (outcome_unit_cases o) as [->|[e ->]].
  - by rewrite (import_from_csv_return _ _ _ _ _ E).
  - by rewrite (import_from_csv_raise _ _ _ _ _ _ E).
Qed.

Lemma main_operation_returns engine args w :
  (main_operation engine args w).1 = Return tt.
Proof.
  unfold main_operation. destruct (arg_operation args).
  - apply export_to_csv_returns.
  - destruct (negb _); [reflexivity | apply import_from_csv_returns].
Qed.

(** [main] is its operation once [get_db_connection] gave an engine, and
    the exception of [get_db_connection] when it gave none. *)
Lemma main_engine_run args w :
  main_engine args w
  = match url_error w (url (mkEngine
            ("postgresql://" +:+ arg_db_user args +:+ ":"
             +:+ arg_db_password args +:+ "@" +:+ arg_db_host args +:+ ":"
             +:+ arg_db_port args +:+ "/" +:+ arg_db_name args))) with
    | Some e => (Raise e, w)
    | None => (Return (mkEngine
            ("postgresql://" +:+ arg_db_user args +:+ ":"
             +:+ arg_db_password args +:+ "@" +:+ arg_db_host args +:+ ":"
             +:+ arg_db_port args +:+ "/" +:+ arg_db_name args)), w)
    end.
Proof. reflexivity. Qed.

Lemma main_Return args w engine :
  (main_engine args w).1 = Return engine →
  main args w = main_operation engine args w.
Proof.
  intros H. change (main args) with (main_engine args ≫= λ engine,
                                     main_operation engine args).
  unfold mbind, M_bind. rewrite main_engine_run in *.
  destruct (url_error w _); simpl in *; [discriminate|]. by injection H as <-.
Qed.

Lemma main_Raise args w e :
  (main_engine args w).1 = Raise e → main args w = (Raise e, w).
Proof.
  intros H. change (main args) with (main_engine args ≫= λ engine,
                                     main_operation engine args).
  unfold mbind, M_bind. rewrite main_engine_run in *.
  destruct (url_error w _); simpl in *; [|discriminate]. by injection H as <-.
Qed.

Lemma main_engine_cases args w :
  (∃ engine, (main_engine args w).1 = Return engine)
  ∨ (∃ e, (main_engine args w).1 = Raise e).
Proof. destruct (main_engine args w) as [[engine|e] w1]; eauto. Qed.

(** ** Runs of the two halves of an import *)

#[local] Arguments drop_columns : simpl never.
#[local] Arguments append_frame : simpl never.

Lemma import_try_split engine t p :
  import_try engine t p = (clear_block engine t;; load_block engine t p).
Proof. reflexivity. Qed.

Lemma no_fault_for_at k w i :
  no_fault_for k w → (i < k)%nat →
  ∀ evs, length evs = i → fault_plan w (length (trace w ++ evs)) = None.
Proof. intros H Hi evs <-. rewrite length_app. by apply H. Qed.

Lemma clear_block_ok engine t w T :
  db w !! t = Some T → no_fault_for 3 w →
  clear_block engine t w = (Return tt, cleared_world engine t T w).
Proof.
  intros HT Hnf.
  pose proof (no_fault_for_at 3 w 0 Hnf ltac:(lia) [] eq_refl) as H0.
  pose proof (no_fault_for_at 3 w 1 Hnf ltac:(lia) [EvConnect (url engine)] eq_refl) as H1.
  pose proof (no_fault_for_at 3 w 2 Hnf ltac:(lia)
                [EvConnect (url engine); EvExecute (DeleteFrom t)] eq_refl) as H2.
  rewrite app_nil_r in H0.
  unfold clear_block. unfold_run. simpl.
  rewrite H0. simpl. rewrite H1. simpl. rewrite HT. simpl.
  rewrite <- app_assoc. simpl. rewrite H2. simpl.
  same_world.
Qed.

Lemma no_fault_for_intro k w :
  (∀ evs, (length evs < k)%nat → fault_plan w (length (trace w ++ evs)) = None) →
  no_fault_for k w.
Proof.
  intros H i Hi. specialize (H (replicate i EvCommit)).
  rewrite length_app, length_replicate in H. by apply H.
Qed.

Lemma clear_block_Return engine t w w1 :
  clear_block engine t w = (Return tt, w1) →
  ∃ T, db w !! t = Some T ∧ no_fault_for 3 w ∧ w1 = cleared_world engine t T w.
Proof.
  intros H.
  assert (∃ T, db w !! t = Some T ∧ no_fault_for 3 w) as (T & HT & Hnf).
  { revert H. unfold clear_block. unfold_run. simpl.
    destruct (fault_plan w (length (trace w))) eqn:H0; [discriminate|]. simpl.
    destruct (fault_plan w (length (trace w ++ [EvConnect (url engine)])))
      eqn:H1; [discriminate|]. simpl.
    destruct (db w !! t) as [T|] eqn:HT; [|discriminate]. simpl.
    destruct (fault_plan w (length ((trace w ++ [EvConnect (url engine)]) ++
                                    [EvExecute (DeleteFrom t)])))
      eqn:H2; [discriminate|].
    intros _. exists T. split; [done|].
    intros i Hi. rewrite !length_app in *. simpl in *.
    destruct i as [|[|[|]]]; try lia.
    - by rewrite Nat.add_0_r.
    - done.
    - by rewrite <- Nat.add_assoc in H2. }
  exists T. repeat split; try done.
  rewrite (clear_block_ok engine t w T HT Hnf) in H. congruence.
Qed.

Lemma clear_block_Raise engine t w e w1 :
  clear_block engine t w = (Raise e, w1) →
  db w1 = db w ∧ fs w1 = fs w ∧ log w1 = log w ∧
  fault_plan w1 = fault_plan w ∧
  ∃ evs, trace w1 = trace w ++ evs ∧ evs ≠ [] ∧
         evs `prefix_of` [EvConnect (url engine); EvExecute (DeleteFrom t);
                          EvCommit].
Proof.
  unfold clear_block. unfold_run. simpl.
  destruct (fault_plan w _); simpl.
  { intros [= <- <-]. simpl. do 4 (split; [done|]).
    exists [EvConnect (url engine)]. do 2 (split; [done|]). by eexists. }
  destruct (fault_plan w _); simpl.
  { intros [= <- <-]. simpl. do 4 (split; [done|]).
    exists [EvConnect (url engine); EvExecute (DeleteFrom t)].
    rewrite <- app_assoc. do 2 (split; [done|]). by eexists. }
  destruct (db w !! t); simpl.
  2:{ intros [= <- <-]. simpl. do 4 (split; [done|]).
      exists [EvConnect (url engine); EvExecute (DeleteFrom t)].
      rewrite <- app_assoc. do 2 (split; [done|]). by eexists. }
  destruct (fault_plan w _); simpl; [|discriminate].
  intros [= <- <-]. simpl. do 4 (split; [done|]).
  exists [EvConnect (url engine); EvExecute (DeleteFrom t); EvCommit].
  rewrite <- !app_assoc. do 2 (split; [done|]). by eexists [].
Qed.

Lemma load_block_ok engine t p w T h recs :
  fs w !! p = Some (CsvFile h recs) → h ≠ [] → db w !! t = Some T →
  forallb (λ c, bool_decide (c ∈ t_columns T))
    (columns (drop_columns (mkDataFrame h recs) ["id"])) = true →
  no_fault_for 2 w →
  load_block engine t p w =
  (Return tt,
   loaded_world t p T (drop_columns (mkDataFrame h recs) ["id"]) w).
Proof.
  intros Hf Hh HT Hcols Hnf.
  pose proof (no_fault_for_at 2 w 0 Hnf ltac:(lia) [] eq_refl) as H0.
  pose proof (no_fault_for_at 2 w 1 Hnf ltac:(lia) [EvReadCsv p] eq_refl) as H1.
  rewrite app_nil_r in H0.
  unfold load_block. unfold_run. simpl.
  rewrite H0. simpl. rewrite Hf. destruct h as [|c h]; [done|]. simpl.
  rewrite H1. simpl. rewrite HT. simpl in Hcols. rewrite Hcols.
  same_world.
Qed.

Lemma load_block_Return engine t p w w1 T :
  load_block engine t p w = (Return tt, w1) → db w !! t = Some T →
  ∃ h recs,
    fs w !! p = Some (CsvFile h recs) ∧ h ≠ [] ∧
    forallb (λ c, bool_decide (c ∈ t_columns T))
      (columns (drop_columns (mkDataFrame h recs) ["id"])) = true ∧
    no_fault_for 2 w ∧
    w1 = loaded_world t p T (drop_columns (mkDataFrame h recs) ["id"]) w.
Proof.
  intros H HT.
  assert (∃ h recs, fs w !! p = Some (CsvFile h recs) ∧ h ≠ [] ∧
            forallb (λ c, bool_decide (c ∈ t_columns T))
              (columns (drop_columns (mkDataFrame h recs) ["id"])) = true ∧
            no_fault_for 2 w) as (h & recs & Hf & Hh & Hcols & Hnf).
  { revert H. unfold load_block. unfold_run. simpl.
    destruct (fault_plan w (length (trace w))) eqn:H0; [discriminate|]. simpl.
    destruct (fs w !! p) as [[|raw|[|c h] recs]|] eqn:Hf; try discriminate.
    simpl.
    destruct (fault_plan w (length (trace w ++ [EvReadCsv p])))
      eqn:H1; [discriminate|]. simpl.
    rewrite HT.
    destruct (forallb _ _) eqn:Hcols; [|discriminate].
    intros _. exists (c :: h), recs. do 3 (split; [done|]).
    intros i Hi. rewrite !length_app in *. simpl in *.
    destruct i as [|[|]]; try lia.
    - by rewrite Nat.add_0_r.
    - done. }
  exists h, recs. do 4 (split; [done|]).
  rewrite (load_block_ok engine t p w T h recs Hf Hh HT Hcols Hnf) in H.
  congruence.
Qed.

Lemma load_block_Raise engine t p w e w1 :
  load_block engine t p w = (Raise e, w1) →
  db w1 = db w ∧ session w1 = session w ∧ fs w1 = fs w ∧ log w1 = log w ∧
  fault_plan w1 = fault_plan w ∧
  ∃ evs, trace w1 = trace w ++ evs ∧ evs ≠ [] ∧
         evs `prefix_of` [EvReadCsv p; EvToSql t].
Proof.
  unfold load_block. unfold_run. simpl.
  assert (∀ w' : World, w' = set_trace (trace w ++ [EvReadCsv p]) w →
    db w' = db w ∧ session w' = session w ∧ fs w' = fs w ∧ log w' = log w ∧
    fault_plan w' = fault_plan w ∧
    ∃ evs, trace w' = trace w ++ evs ∧ evs ≠ [] ∧
           evs `prefix_of` [EvReadCsv p; EvToSql t]) as Hread.
  { intros w' ->. simpl. do 5 (split; [done|]).
    exists [EvReadCsv p]. do 2 (split; [done|]). by eexists. }
  assert (∀ w' : World,
    w' = set_trace ((trace w ++ [EvReadCsv p]) ++ [EvToSql t]) w →
    db w' = db w ∧ session w' = session w ∧ fs w' = fs w ∧ log w' = log w ∧
    fault_plan w' = fault_plan w ∧
    ∃ evs, trace w' = trace w ++ evs ∧ evs ≠ [] ∧
           evs `prefix_of` [EvReadCsv p; EvToSql t]) as Hsql.
  { intros w' ->. simpl. do 5 (split; [done|]).
    exists [EvReadCsv p; EvToSql t]. rewrite <- app_assoc.
    do 2 (split; [done|]). by eexists []. }
  destruct (fault_plan w _); simpl.
  { intros [= <- <-]. by apply Hread. }
  destruct (fs w !! p) as [[|raw|[|c h] recs]|]; simpl;
    try (intros [= <- <-]; by apply Hread).
  destruct (fault_plan w _); simpl.
  { intros [= <- <-]. by apply Hsql. }
  destruct (db w !! t); simpl; [|discriminate].
  destruct (forallb _ _); [discriminate|].
  intros [= <- <-]. by apply Hsql.
Qed.

Lemma import_try_run engine t p w :
  import_try engine t p w =
  match clear_block engine t w with
  | (Return _, w1) => load_block engine t p w1
  | (Raise e, w1) => (Raise e, w1)
  end.
Proof. reflexivity. Qed.

Lemma no_fault_for_le k k' w : (k' ≤ k)%nat → no_fault_for k w → no_fault_for k' w.
Proof. intros Hk H i Hi. apply H. lia. Qed.

Lemma no_fault_for_cleared engine t T w :
  no_fault_for 5 w → no_fault_for 2 (cleared_world engine t T w).
Proof.
  intros H i Hi. simpl. rewrite length_app. simpl.
  rewrite <- Nat.add_assoc. apply H. lia.
Qed.

Lemma no_fault_for_split engine t T w :
  no_fault_for 3 w → no_fault_for 2 (cleared_world engine t T w) →
  no_fault_for 5 w.
Proof.
  intros H3 H2 i Hi. destruct (decide (i < 3)%nat) as [Hlt|Hge].
  - by apply H3.
  - specialize (H2 (i - 3)%nat ltac:(lia)). simpl in H2.
    rewrite length_app in H2. simpl in H2.
    rewrite <- H2. f_equal. lia.
Qed.

(** The frame an import loads: the file's table without its [id] column. *)
Lemma import_try_ok engine t p w T h recs :
  db w !! t = Some T → fs w !! p = Some (CsvFile h recs) → h ≠ [] →
  forallb (λ c, bool_decide (c ∈ t_columns T))
    (columns (drop_columns (mkDataFrame h recs) ["id"])) = true →
  no_fault_for 5 w →
  import_try engine t p w =
  (Return tt,
   loaded_world t p (clear_rows T) (drop_columns (mkDataFrame h recs) ["id"])
     (cleared_world engine t T w)).
Proof.
  intros HT Hf Hh Hcols Hnf. rewrite import_try_run.
  rewrite (clear_block_ok engine t w T HT (no_fault_for_le 5 3 w ltac:(lia) Hnf)).
  apply load_block_ok; try done.
  - simpl. by rewrite lookup_insert_eq.
  - by apply no_fault_for_cleared.
Qed.

Lemma import_try_Return engine t p w w1 :
  import_try engine t p w = (Return tt, w1) →
  ∃ T h recs,
    db w !! t = Some T ∧ fs w !! p = Some (CsvFile h recs) ∧ h ≠ [] ∧
    forallb (λ c, bool_decide (c ∈ t_columns T))
      (columns (drop_columns (mkDataFrame h recs) ["id"])) = true ∧
    no_fault_for 5 w ∧
    w1 = loaded_world t p (clear_rows T)
           (drop_columns (mkDataFrame h recs) ["id"])
           (cleared_world engine t T w).
Proof.
  rewrite import_try_run.
  destruct (clear_block engine t w) as [[[]|e] w0] eqn:Hc; [|discriminate].
  apply clear_block_Return in Hc as (T & HT & Hnf3 & ->).
  intros Hl.
  eapply load_block_Return in Hl as (h & recs & Hf & Hh & Hcols & Hnf2 & ->);
    [|simpl; by rewrite lookup_insert_eq].
  exists T, h, recs. repeat split; try done.
  by eapply no_fault_for_split.
Qed.

Lemma import_try_Raise engine t p w e w1 :
  import_try engine t p w = (Raise e, w1) →
  fs w1 = fs w ∧ fault_plan w1 = fault_plan w ∧
  (∃ evs, trace w1 = trace w ++ evs ∧ evs ≠ [] ∧
          evs `prefix_of` import_calls engine t p) ∧
  ((db w1 = db w ∧ log w1 = log w) ∨
   (∃ T, db w !! t = Some T ∧ db w1 = <[t := clear_rows T]> (db w) ∧
         log w1 = log w ++ [(INFO, "Table cleared successfully.")])).
Proof.
  rewrite import_try_run.
  destruct (clear_block engine t w) as [[[]|e0] w0] eqn:Hc.
  - apply clear_block_Return in Hc as (T & HT & Hnf3 & ->).
    intros Hl.
    apply load_block_Raise in Hl
      as (Hdb & _ & Hfs & Hlog & Hfp & evs & Htr & Hne & [k Hk]).
    simpl in *. do 2 (split; [done|]). split.
    + eexists (_ ++ evs). rewrite Htr, <- app_assoc. split; [done|].
      split; [done|]. exists k. unfold import_calls. simpl. by rewrite Hk.
    + right. by exists T.
  - intros [= <- <-].
    apply clear_block_Raise in Hc
      as (Hdb & Hfs & Hlog & Hfp & evs & Htr & Hne & [k Hk]).
    do 2 (split; [done|]). split.
    + exists evs. do 2 (split; [done|]). exists (k ++ [EvReadCsv p; EvToSql t]).
      unfold import_calls. rewrite app_assoc, <- Hk. done.
    + by left.
Qed.

(** ** Runs of an export *)

Lemma export_try_ok engine t p w T :
  db w !! t = Some T → no_fault_for 2 w →
  export_try engine t p w = (Return tt, exported_world t p T w).
Proof.
  intros HT Hnf.
  pose proof (no_fault_for_at 2 w 0 Hnf ltac:(lia) [] eq_refl) as H0.
  pose proof (no_fault_for_at 2 w 1 Hnf ltac:(lia) [EvReadSqlTable t] eq_refl)
    as H1.
  rewrite app_nil_r in H0.
  unfold_run. simpl. rewrite H0. simpl. rewrite HT. simpl. rewrite H1.
  same_world.
Qed.

Lemma export_try_Return engine t p w w1 :
  export_try engine t p w = (Return tt, w1) →
  ∃ T, db w !! t = Some T ∧ no_fault_for 2 w ∧ w1 = exported_world t p T w.
Proof.
  intros H.
  assert (∃ T, db w !! t = Some T ∧ no_fault_for 2 w) as (T & HT & Hnf).
  { revert H. unfold_run. simpl.
    destruct (fault_plan w (length (trace w))) eqn:H0; [discriminate|]. simpl.
    destruct (db w !! t) as [T|] eqn:HT; [|discriminate]. simpl.
    destruct (fault_plan w (length (trace w ++ [EvReadSqlTable t])))
      eqn:H1; [discriminate|].
    intros _. exists T. split; [done|].
    intros i Hi. rewrite !length_app in *. simpl in *.
    destruct i as [|[|]]; try lia.
    - by rewrite Nat.add_0_r.
    - done. }
  exists T. do 2 (split; [done|]).
  rewrite (export_try_ok engine t p w T HT Hnf) in H. congruence.
Qed.

Lemma export_try_Raise engine t p w e w1 :
  export_try engine t p w = (Raise e, w1) →
  db w1 = db w ∧ session w1 = session w ∧ fs w1 = fs w ∧ log w1 = log w ∧
  fault_plan w1 = fault_plan w ∧
  ∃ evs, trace w1 = trace w ++ evs ∧ evs ≠ [] ∧
         evs `prefix_of` [EvReadSqlTable t; EvToCsv p].
Proof.
  unfold_run. simpl.
  destruct (fault_plan w _); simpl.
  { intros [= <- <-]. simpl. do 5 (split; [done|]).
    exists [EvReadSqlTable t]. do 2 (split; [done|]). by eexists. }
  destruct (db w !! t); simpl.
  2:{ intros [= <- <-]. simpl. do 5 (split; [done|]).
      exists [EvReadSqlTable t]. do 2 (split; [done|]). by eexists. }
  destruct (fault_plan w _); simpl; [|discriminate].
  intros [= <- <-]. simpl. do 5 (split; [done|]).
  exists [EvReadSqlTable t; EvToCsv p]. rewrite <- app_assoc.
  do 2 (split; [done|]). by eexists [].
Qed.

(** ** Columns, masks and rows *)

Lemma select_keep_mask (labels cols : list string) :
  select (keep_mask labels cols) cols = filter (λ c, c ∉ labels) cols.
Proof.
  induction cols as [|c cols IH]; [done|]. simpl.
  rewrite filter_cons. case_bool_decide; case_decide; try done.
  - by rewrite IH.
Qed.



Lemma select_keep_all {A : Type} (labels cols : list string) (r : list A) :
  Forall (λ c, c ∉ labels) cols → length r = length cols →
  select (keep_mask labels cols) r = r.
Proof.
  intros Hall. revert r. induction Hall as [|c cols Hc Hall IH];
    intros [|x r]; simpl; try done.
  intros [= H]. rewrite bool_decide_eq_true_2 by done. by rewrite IH.
Qed.









(** * The specification, property by property *)

(** ** Missing [--csv_file] *)

Lemma main_operation_falsy_csv_file engine args w :
  arg_operation args = OpImport → truthy (arg_csv_file args) = false →
  main_operation engine args w =
  (Return tt,
   set_log (log w ++ [(ERROR, "CSV file path is required for import.")]) w).
Proof. intros Hop Hf. unfold main_operation. by rewrite Hop, Hf. Qed.

(** What [main] does on an import whose path is missing or empty. *)
Lemma main_import_falsy_csv_file args w :
  arg_operation args = OpImport → truthy (arg_csv_file args) = false →
  calls_of w (main args w).2 = []
  ∧ db (main args w).2 = db w
  ∧ (∀ engine, (main_engine args w).1 = Return engine →
       main args w =
       (Return tt,
        set_log (log w ++ [(ERROR, "CSV file path is required for import.")])
          w))
  ∧ (∀ e, (main_engine args w).1 = Raise e →
       main args w = (Raise e, w) ∧ log (main args w).2 = log w).
Proof.
  intros Hop Hf.
  assert (∀ engine, (main_engine args w).1 = Return engine →
            main args w =
            (Return tt,
             set_log (log w ++ [(ERROR, "CSV file path is required for import.")])
               w)) as Hret.
  { intros engine He. rewrite (main_Return args w engine He).
    by apply main_operation_falsy_csv_file. }
  assert (∀ e, (main_engine args w).1 = Raise e → main args w = (Raise e, w))
    as Hraise by (intros e He; by apply main_Raise).
  destruct (main_engine_cases args w) as [[engine He]|[e He]].
  - rewrite (Hret engine He). unfold calls_of. simpl. rewrite drop_all.
    do 3 (split; [done|]). intros e He'. congruence.
  - rewrite (Hraise e He). unfold calls_of. simpl. rewrite drop_all.
    do 2 (split; [done|]). split; [intros engine He'; congruence|].
    intros e' He'. by assert (e' = e) as -> by congruence.
Qed.

(** C5, refuted as worded: with a port that is no number,
    [get_db_connection] raises before [main] looks at [--csv_file], and
    nothing is logged. *)
Lemma bad_port_logs_no_missing_path :
  ¬ missing_csv_file_is_logged (args_bad_port OpImport None) world_strict.
Proof.
  intros H. destruct (H eq_refl eq_refl) as [Hlog _].
  vm_compute in Hlog. by apply elem_of_nil in Hlog.
Qed.

(** C5, amended.  An import whose [--csv_file] argument is absent makes no
    library call, so the database is never reached and is left as it was.
    When [get_db_connection] gives an engine, [main] logs the missing-path
    error and returns, the world differing from the one it found by that
    record only; when it raises, on a URL [create_engine] cannot make an
    engine of, its exception leaves [main] and nothing is logged. *)
Theorem import_without_csv_file_aborts (args : Args) (w : World) :
  arg_operation args = OpImport → arg_csv_file args = None →
  calls_of w (main args w).2 = []
  ∧ db (main args w).2 = db w
  ∧ (∀ engine, (main_engine args w).1 = Return engine →
       main args w =
       (Return tt,
        set_log (log w ++ [(ERROR, "CSV file path is required for import.")])
          w))
  ∧ (∀ e, (main_engine args w).1 = Raise e →
       main args w = (Raise e, w) ∧ log (main args w).2 = log w).
Proof.
  intros Hop Hcsv. apply main_import_falsy_csv_file; [done|].
  by rewrite Hcsv.
Qed.

Lemma import_without_csv_file_aborts_witness :
  calls_of world0 (main (args_import None) world0).2 = []
  ∧ db (main (args_import None) world0).2 = db world0
  ∧ main (args_import None) world0 =
    (Return tt,
     set_log (log world0
              ++ [(ERROR, "CSV file path is required for import.")]) world0).
Proof.
  destruct (import_without_csv_file_aborts (args_import None) world0
              eq_refl eq_refl) as (Hc & Hdb & Hret & _).
  split; [exact Hc|]. split; [exact Hdb|].
  exact (Hret engine0 eq_refl).
Defined.

(** C10, refuted as worded: with a port that is no number, an import given
    [--csv_file ''] logs nothing either. *)
Lemma bad_port_logs_no_empty_path :
  ¬ empty_csv_file_is_logged (args_bad_port OpImport (Some "")) world_strict.
Proof.
  intros H. destruct (H eq_refl eq_refl) as (_ & Hlog & _).
  vm_compute in Hlog. by apply elem_of_nil in Hlog.
Qed.

(** C10, amended.  An import given [--csv_file ''] goes the way of one
    given no [--csv_file], whatever the other arguments: the empty string
    is false like [None].  No library call is made and the database is
    left as it was; when [get_db_connection] gives an engine the
    missing-path error is logged and [main] returns, and when it raises
    its exception leaves [main] and nothing is logged. *)
Theorem import_with_empty_csv_file_aborts (args : Args) (w : World) :
  arg_operation args = OpImport → arg_csv_file args = Some "" →
  main args w = main (with_csv_file None args) w
  ∧ calls_of w (main args w).2 = []
  ∧ db (main args w).2 = db w
  ∧ (∀ engine, (main_engine args w).1 = Return engine →
       main args w =
       (Return tt,
        set_log (log w ++ [(ERROR, "CSV file path is required for import.")])
          w))
  ∧ (∀ e, (main_engine args w).1 = Raise e →
       main args w = (Raise e, w) ∧ log (main args w).2 = log w).
Proof.
  intros Hop Hcsv. split.
  - unfold main. simpl. by rewrite Hop, Hcsv.
  - apply main_import_falsy_csv_file; [done|]. by rewrite Hcsv.
Qed.

Lemma import_with_empty_csv_file_aborts_witness :
  main (args_import (Some "")) world0
    = main (with_csv_file None (args_import (Some ""))) world0
  ∧ calls_of world0 (main (args_import (Some "")) world0).2 = []
  ∧ main (args_import (Some "")) world0 =
      (Return tt,
       set_log (log world0
                ++ [(ERROR, "CSV file path is required for import.")]) world0).
Proof.
  destruct (import_with_empty_csv_file_aborts (args_import (Some "")) world0
              eq_refl eq_refl) as (Heq & Hc & _ & Hret & _).
  split; [exact Heq|]. split; [exact Hc|].
  exact (Hret engine0 eq_refl).
Defined.

(** ** Export *)

Lemma calls_of_app (w w' : World) (evs : list Event) :
  trace w' = trace w ++ evs → calls_of w w' = evs.
Proof. intros H. unfold calls_of. by rewrite H, drop_app_length. Qed.

Lemma export_to_csv_frame engine t p w :
  db (export_to_csv engine t p w).2 = db w ∧
  session (export_to_csv engine t p w).2 = session w ∧
  ∃ evs, trace (export_to_csv engine t p w).2 = trace w ++ evs ∧
         evs `prefix_of` [EvReadSqlTable t; EvToCsv p].
Proof.
  destruct (export_try engine t p w) as [o w1] eqn:E.
  destruct (outcome_unit_cases o) as [->|[e ->]].
  - rewrite (export_to_csv_return _ _ _ _ _ E).
    apply export_try_Return in E as (T & _ & _ & ->). simpl.
    do 2 (split; [done|]). eexists. split; [done|]. by exists [].
  - rewrite (export_to_csv_raise _ _ _ _ _ _ E).
    apply export_try_Raise in E as (? & ? & _ & _ & _ & evs & ? & _ & ?).
    simpl. do 2 (split; [done|]). by exists evs.
Qed.

(** C9.  An export leaves the database as it found it: the committed
    tables are the same after the call, whatever the environment does, and
    the library calls it makes are at most [read_sql_table] and [to_csv],
    none of which is a mutating statement. *)
Theorem export_leaves_database_unchanged (engine : Engine)
    (table_name csv_file_path : string) (w : World) :
  db (export_to_csv engine table_name csv_file_path w).2 = db w
  ∧ session (export_to_csv engine table_name csv_file_path w).2 = session w
  ∧ calls_of w (export_to_csv engine table_name csv_file_path w).2
      `prefix_of` [EvReadSqlTable table_name; EvToCsv csv_file_path]
  ∧ Forall (λ ev, mutating ev = false)
      (calls_of w (export_to_csv engine table_name csv_file_path w).2).
Proof.
  destruct (export_to_csv_frame engine table_name csv_file_path w)
    as (Hdb & Hs & evs & Htr & Hpre).
  rewrite (calls_of_app _ _ _ Htr). do 3 (split; [done|]).
  destruct Hpre as [k Hk].
  assert (Forall (λ ev, mutating ev = false)
            [EvReadSqlTable table_name; EvToCsv csv_file_path]) as Hall
    by (by repeat constructor).
  rewrite Hk in Hall. by apply Forall_app in Hall as [? _].
Qed.

Lemma filter_all {A : Type} (P : A → Prop) `{∀ x, Decision (P x)}
    (l : list A) :
  Forall P l → filter P l = l.
Proof.
  induction 1 as [|x l Hx Hl IH]; [done|].
  by rewrite filter_cons_True, IH.
Qed.

Lemma dropped_columns_filter (cols : list string) :
  select (keep_mask ["id"] cols) cols = filter (λ c, c ≠ "id") cols.
Proof.
  rewrite select_keep_mask. apply list_filter_iff. intros c.
  by rewrite list_elem_of_singleton.
Qed.

(** C4.  An export of an existing table, when [get_db_connection] gave an
    engine and the environment lets the two library calls through, writes,
    at [<table_name>.csv], a CSV file whose header line is the table's
    column names without the column named [id], in the table's order, with
    no index column before them, and whose records are the table's rows
    without their [id] cell, as CSV text holds them.  A table with no [id]
    column is written with exactly its own columns, and the export
    succeeds all the same: the success record is what gets logged. *)
Theorem export_writes_table_csv (args : Args) (w : World) (T : Table)
    (engine : Engine) :
  arg_operation args = OpExport →
  (main_engine args w).1 = Return engine →
  db w !! arg_table_name args = Some T →
  no_fault_for 2 w →
  let w' := (main args w).2 in
  let path := arg_table_name args +:+ ".csv" in
  let header := filter (λ c, c ≠ "id") (t_columns T) in
  fs w' !! path
  = Some (CsvFile header
            (csv_view w
               (drop_columns (mkDataFrame (t_columns T) (t_rows T)) ["id"])))
  ∧ ("id" ∉ header)
  ∧ ("id" ∉ t_columns T → header = t_columns T)
  ∧ log w' = log w ++ [(INFO, "Data exported successfully to " +:+ path
                              +:+ ".")].
Proof.
  intros Hop He HT Hnf w' path header. subst w'.
  rewrite (main_Return args w engine He). unfold main_operation. rewrite Hop.
  rewrite (export_to_csv_return _ _ _ _ _
             (export_try_ok _ _ path w T HT Hnf)).
  simpl. rewrite lookup_insert_eq. simpl.
  rewrite dropped_columns_filter. repeat split; try done.
  - intros [H _]%list_elem_of_filter. done.
  - intros Hid. apply filter_all, Forall_forall. by intros c Hc ->.
Qed.

Lemma export_writes_table_csv_witness :
  fs (main args_export world0).2 !! "orders.csv"
    = Some (CsvFile ["sku"; "qty"] [[Str "X1"; Int 5]])
  ∧ log (main args_export world0).2
    = [(INFO, "Data exported successfully to orders.csv.")].
Proof.
  destruct (export_writes_table_csv args_export world0 orders engine0)
    as (Hfs & _ & _ & Hlog);
    [reflexivity | reflexivity | reflexivity | done |].
  split; [exact Hfs | exact Hlog].
Defined.

(** ** No exception leaves an operation *)

(** C7.  Whatever the [try] block of an export or of an import raises, the
    operation returns normally, with the state the block left and one
    error record added to the log; so both operations return for every
    start, and once [main] has its engine it returns too and the process
    ends with status 0.  An exception leaves [main] only when
    [get_db_connection] raised it, before either operation began.
    (Exceptions are instances of [Exception], what a library call
    raises.) *)
Theorem operations_catch_every_exception (engine : Engine)
    (table_name csv_file_path : string) (w : World) :
  (∀ e w1, export_try engine table_name csv_file_path w = (Raise e, w1) →
     export_to_csv engine table_name csv_file_path w =
     (Return tt,
      set_log (log w1 ++ [(ERROR, "Error exporting data: " +:+ str e)]) w1))
  ∧ (∀ e w1, import_try engine table_name csv_file_path w = (Raise e, w1) →
     import_from_csv engine table_name csv_file_path w =
     (Return tt,
      set_log (log w1 ++
               [(ERROR, failure_message (category_of e) csv_file_path (str e))])
        w1))
  ∧ (export_to_csv engine table_name csv_file_path w).1 = Return tt
  ∧ (import_from_csv engine table_name csv_file_path w).1 = Return tt
  ∧ ∀ args,
      (∀ engine', (main_engine args w).1 = Return engine' →
         (main args w).1 = Return tt ∧ exit_status (main args w).1 = 0)
      ∧ (∀ e, (main args w).1 = Raise e → (main_engine args w).1 = Raise e).
Proof.
  split; [intros e w1; apply export_to_csv_raise|].
  split; [intros e w1; apply import_from_csv_raise|].
  split; [apply export_to_csv_returns|].
  split; [apply import_from_csv_returns|].
  intros args. split.
  - intros engine' He. rewrite (main_Return args w engine' He).
    by rewrite main_operation_returns.
  - intros e Hmain.
    destruct (main_engine_cases args w) as [[engine' He]|[e' He]].
    + rewrite (main_Return args w engine' He) in Hmain.
      by rewrite main_operation_returns in Hmain.
    + rewrite (main_Raise args w e' He) in Hmain. simpl in Hmain.
      by injection Hmain as <-.
Qed.

(** The [try] blocks do raise: an export of a table that does not exist,
    an import the database refuses. *)
Example export_try_raises :
  (export_try engine0 "nowhere" "nowhere.csv" world0).1
  = Raise (mkExn ValueError "Table nowhere not found").
Proof. reflexivity. Qed.

Example import_try_raises :
  (import_try engine0 "orders" "orders.csv"
     (world_down (mkExn OperationalError "connection refused"))).1
  = Raise (mkExn OperationalError "connection refused").
Proof. reflexivity. Qed.

(** ** Imports that fail *)

Lemma import_from_csv_calls engine t p w :
  ∃ evs, trace (import_from_csv engine t p w).2 = trace w ++ evs ∧
         evs ≠ [] ∧ evs `prefix_of` import_calls engine t p.
Proof.
  destruct (import_try engine t p w) as [o w1] eqn:E.
  destruct (outcome_unit_cases o) as [->|[e ->]].
  - rewrite (import_from_csv_return _ _ _ _ _ E).
    apply import_try_Return in E as (T & h & recs & _ & _ & _ & _ & _ & ->).
    simpl. rewrite <- app_assoc. eexists. split; [done|]. split; [done|].
    by exists [].
  - rewrite (import_from_csv_raise _ _ _ _ _ _ E).
    by apply import_try_Raise in E as (_ & _ & Hev & _).
Qed.







(** The three ways a read fails, after the [orders] table was cleared. *)
Example failed_reads_clear_orders :
  let after f := (import_from_csv engine0 "orders" "in.csv"
                    (mkWorld {["orders" := orders]} None f [] [] no_fault any_url
                       same_cells)).2 in
  (log (after ∅), t_rows <$> db (after ∅) !! "orders")
    = ([cleared_record; file_not_found_record "in.csv"], Some [])
  ∧ (log (after {["in.csv" := EmptyFile]}),
     t_rows <$> db (after {["in.csv" := EmptyFile]}) !! "orders")
    = ([cleared_record; (ERROR, "The file is empty.")], Some [])
  ∧ (log (after {["in.csv" := Unparsable "sku;qty|X1"]}),
     t_rows <$> db (after {["in.csv" := Unparsable "sku;qty|X1"]}) !! "orders")
    = ([cleared_record; (ERROR, "The file could not be parsed.")], Some []).
Proof. repeat split. Qed.

Lemma append_String (a : Ascii.ascii) (s t : string) :
  String a s +:+ t = String a (s +:+ t).
Proof. reflexivity. Qed.

Lemma append_Empty (t : string) : "" +:+ t = t.
Proof. reflexivity. Qed.

Lemma not_found_suffix_length (q rest : string) :
  (String.length rest < 15)%nat → q +:+ " was not found." ≠ rest.
Proof.
  intros Hr Heq. rewrite <- Heq in Hr. clear Heq.
  induction q as [|a q IH].
  - rewrite append_Empty in Hr. simpl in Hr. lia.
  - rewrite append_String in Hr. simpl in Hr. lia.
Qed.

(** The messages of two categories never coincide, whatever the path and
    the exception text. *)
Lemma failure_message_category (c c' : Category) (p p' s s' : string) :
  failure_message c p s = failure_message c' p' s' → c = c'.
Proof.
  destruct c, c'; simpl; intros H; try done;
    rewrite ?append_String, ?append_Empty in H;
    try discriminate H; simplify_eq.
  - by apply not_found_suffix_length in H; [|simpl; lia].
  - repeat (destruct p as [|? p];
            rewrite ?append_String, ?append_Empty in H; [discriminate H|];
            injection H as _ H).
    by apply not_found_suffix_length in H; [|simpl; lia].
  - symmetry in H. by apply not_found_suffix_length in H; [|simpl; lia].
  - symmetry in H.
    repeat (destruct p' as [|? p'];
            rewrite ?append_String, ?append_Empty in H; [discriminate H|];
            injection H as _ H).
    by apply not_found_suffix_length in H; [|simpl; lia].
Qed.

Lemma import_calls_NoDup engine t p : NoDup (import_calls engine t p).
Proof.
  unfold import_calls. repeat (apply NoDup_cons; split);
    [..|apply NoDup_nil_2];
    intros Hin;
    repeat (apply elem_of_cons in Hin as [Hin|Hin]; [discriminate Hin|]);
    by apply elem_of_nil in Hin.
Qed.

(** C6.  An import whose [try] block raises logs exactly one error record,
    the last of the run, after at most the record of the clearing.  Its
    message is the one of the category of the exception, the first
    [except] clause that takes it, among the six: file missing, file
    empty, file unparsable, integrity violation, database failure, any
    other failure; no other category has that message.  The failure is
    final: the handler makes no library call and touches neither the
    database nor the files, and the calls of the whole run are a beginning
    of connect, delete, commit, read, load, none of them made twice. *)
Theorem failed_import_logs_one_category (engine : Engine)
    (table_name csv_file_path : string) (w : World) (e : Exn) (w1 : World) :
  import_try engine table_name csv_file_path w = (Raise e, w1) →
  let w' := (import_from_csv engine table_name csv_file_path w).2 in
  let msg := failure_message (category_of e) csv_file_path (str e) in
  (log w' = log w ++ [(ERROR, msg)]
   ∨ log w' = log w ++ [cleared_record; (ERROR, msg)])
  ∧ (∀ c' p' s', failure_message c' p' s' = msg → c' = category_of e)
  ∧ calls_of w w' = calls_of w w1
  ∧ calls_of w w' ≠ []
  ∧ calls_of w w' `prefix_of` import_calls engine table_name csv_file_path
  ∧ NoDup (calls_of w w')
  ∧ db w' = db w1 ∧ fs w' = fs w1.
Proof.
  intros E w' msg. subst w' msg.
  rewrite (import_from_csv_raise _ _ _ _ _ _ E). simpl.
  apply import_try_Raise in E
    as (_ & _ & (evs & Htr & Hne & Hpre) & Hcases).
  split.
  { destruct Hcases as [[_ ->]|(T & _ & _ & ->)]; [by left|right].
    by rewrite <- app_assoc. }
  split; [intros c' p' s' H; by eapply failure_message_category|].
  split; [done|].
  rewrite (calls_of_app w _ evs) by done.
  do 2 (split; [done|]).
  split; [|done].
  destruct Hpre as [k Hk].
  pose proof (import_calls_NoDup engine table_name csv_file_path) as Hnd.
  rewrite Hk in Hnd. by apply NoDup_app in Hnd as [? _].
Qed.

Lemma failed_import_logs_one_category_witness :
  (log (import_from_csv engine0 "orders" "missing.csv" world0).2
     = log world0 ++ [(ERROR, "The file missing.csv was not found.")]
   ∨ log (import_from_csv engine0 "orders" "missing.csv" world0).2
     = log world0 ++ [cleared_record;
                      (ERROR, "The file missing.csv was not found.")])
  ∧ calls_of world0 (import_from_csv engine0 "orders" "missing.csv" world0).2
    = [EvConnect (url engine0); EvExecute (DeleteFrom "orders"); EvCommit;
       EvReadCsv "missing.csv"].
Proof.
  assert (import_try engine0 "orders" "missing.csv" world0
          = (Raise (mkExn FileNotFoundError
                      "No such file or directory: 'missing.csv'"),
             (import_try engine0 "orders" "missing.csv" world0).2)) as E
    by (vm_compute; reflexivity).
  destruct (failed_import_logs_one_category engine0 "orders" "missing.csv"
              world0 _ _ E) as (Hlog & _ & Hcalls & _).
  split; [exact Hlog | rewrite Hcalls; vm_compute; reflexivity].
Defined.

(** Each of the six categories occurs. *)
Example six_failure_categories :
  let sheet := CsvFile ["sku"; "qty"] [[Str "X1"; Int 5]] in
  let last_record w := last (log (import_from_csv engine0 "orders" "in.csv" w).2) in
  last_record world0 = Some (ERROR, "The file in.csv was not found.")
  ∧ last_record (world_with "in.csv" EmptyFile 9 (mkExn Exception ""))
    = Some (ERROR, "The file is empty.")
  ∧ last_record (world_with "in.csv" (Unparsable "sku;qty|X1") 9
                   (mkExn Exception ""))
    = Some (ERROR, "The file could not be parsed.")
  ∧ last_record (world_with "in.csv" sheet 4
                   (mkExn IntegrityError "null value in column id"))
    = Some (ERROR, "Integrity error during import: null value in column id")
  ∧ last_record (world_down (mkExn OperationalError "connection refused"))
    = Some (ERROR, "Database connection error: connection refused")
  ∧ last (log (import_from_csv engine0 "nowhere" "in.csv" world0).2)
    = Some (ERROR, "Error importing data: relation nowhere does not exist").
Proof. repeat split. Qed.

(** ** Imports that succeed *)







(** ** Export, then import *)






(** The scenario of the specification: one row [(1, 'X1', 5)] goes out as
    [sku,qty] / [X1,5] and comes back with a fresh [id]. *)
Example orders_round_trip :
  let w1 := (main args_export world0).2 in
  let w2 := (main (args_import (Some "orders.csv")) w1).2 in
  fs w1 !! "orders.csv" = Some (CsvFile ["sku"; "qty"] [[Str "X1"; Int 5]])
  ∧ db w2 !! "orders"
    = Some (mkTable ["id"; "sku"; "qty"] [[Int 2; Str "X1"; Int 5]] 3)
  ∧ log w2 = [(INFO, "Data exported successfully to orders.csv.");
              cleared_record;
              (INFO, "Data uploaded successfully! 1 records imported.")].
Proof. repeat split. Qed.

(** * Further properties of the script *)

(** ** [get_db_connection] *)

Lemma append_assoc (a b c : string) : (a +:+ b) +:+ c = a +:+ (b +:+ c).
Proof.
  induction a as [|x a IH]; [done|].
  by rewrite !append_String, IH.
Qed.

(** X1.  [get_db_connection] pastes its parameters into the URL as they
    are.  A colon inside the user name cannot be told from the separator
    before the password: the user [u:s] with the password [p] and the user
    [u] with the password [s:p] give the same engine. *)
Theorem get_db_connection_unescaped
    (u s p db_host db_port db_name : string) :
  get_db_connection (u +:+ ":" +:+ s) p db_host db_port db_name
  = get_db_connection u (s +:+ ":" +:+ p) db_host db_port db_name.
Proof.
  unfold get_db_connection, create_engine. f_equal.
  by rewrite !append_assoc.
Qed.

(** ** Export: what it writes and what it leaves *)

Lemma export_to_csv_other_files engine t p w q :
  q ≠ p → fs (export_to_csv engine t p w).2 !! q = fs w !! q.
Proof.
  intros Hq.
  destruct (export_try engine t p w) as [o w1] eqn:E.
  destruct (outcome_unit_cases o) as [->|[e ->]].
  - rewrite (export_to_csv_return _ _ _ _ _ E).
    apply export_try_Return in E as (T & _ & _ & ->). simpl.
    by rewrite lookup_insert_ne.
  - rewrite (export_to_csv_raise _ _ _ _ _ _ E).
    apply export_try_Raise in E as (_ & _ & Hfs & _). simpl.
    by rewrite Hfs.
Qed.

(** X2.  An export changes no file but the one at [csv_file_path]: every
    other path holds after the call what it held before, whether the
    export succeeds or fails. *)
Theorem export_touches_one_file (engine : Engine)
    (table_name csv_file_path : string) (w : World) (q : string) :
  q ≠ csv_file_path →
  fs (export_to_csv engine table_name csv_file_path w).2 !! q = fs w !! q.
Proof. apply export_to_csv_other_files. Qed.

Lemma export_touches_one_file_witness :
  fs (export_to_csv engine0 "orders" "orders.csv"
        (world_with "notes.txt" EmptyFile 9 (mkExn Exception ""))).2
    !! "notes.txt"
  = Some EmptyFile.
Proof.
  rewrite (export_touches_one_file engine0 "orders" "orders.csv"
             (world_with "notes.txt" EmptyFile 9 (mkExn Exception ""))
             "notes.txt"); [reflexivity | discriminate].
Defined.

(** X3.  [main] ignores [--csv_file] on an export: the run is the same
    whatever the option holds, and the file it names, unless that is
    [<table_name>.csv] itself, is left as it was. *)
Theorem main_export_ignores_csv_file (args : Args) (w : World) :
  arg_operation args = OpExport →
  (∀ f, main (with_csv_file f args) w = main args w)
  ∧ (∀ q, arg_csv_file args = Some q → q ≠ arg_table_name args +:+ ".csv" →
       fs (main args w).2 !! q = fs w !! q).
Proof.
  intros Hop. split.
  - intros f. unfold main. simpl. by rewrite Hop.
  - intros q _ Hq.
    destruct (main_engine_cases args w) as [[engine He]|[e He]].
    + rewrite (main_Return args w engine He). unfold main_operation.
      rewrite Hop. by apply export_to_csv_other_files.
    + by rewrite (main_Raise args w e He).
Qed.

Lemma main_export_ignores_csv_file_witness :
  main (with_csv_file (Some "elsewhere.csv") args_export) world0
  = main args_export world0.
Proof.
  destruct (main_export_ignores_csv_file args_export world0 eq_refl)
    as [H _].
  exact (H (Some "elsewhere.csv")).
Defined.

(** X4.  When the table cannot be read, because it does not exist or
    because the database fails on the read, an export stops there:
    [to_csv] is never called, no file is created or changed, and one error
    record starting with [Error exporting data: ] is logged. *)
Theorem export_read_failure_writes_nothing (engine : Engine)
    (table_name csv_file_path : string) (w : World) :
  db w !! table_name = None ∨ is_Some (fault_plan w (length (trace w))) →
  calls_of w (export_to_csv engine table_name csv_file_path w).2
    = [EvReadSqlTable table_name]
  ∧ fs (export_to_csv engine table_name csv_file_path w).2 = fs w
  ∧ ∃ msg, log (export_to_csv engine table_name csv_file_path w).2
           = log w ++ [(ERROR, "Error exporting data: " +:+ msg)].
Proof.
  intros Hcause.
  assert (∃ e, export_try engine table_name csv_file_path w
               = (Raise e, set_trace (trace w ++ [EvReadSqlTable table_name]) w))
    as [e E].
  { unfold_run. simpl.
    destruct (fault_plan w (length (trace w))) as [e|] eqn:Hf; simpl.
    - by exists e.
    - destruct Hcause as [Hnone|[e He]]; [|done].
      rewrite Hnone. by eexists. }
  rewrite (export_to_csv_raise _ _ _ _ _ _ E). simpl.
  split; [by apply calls_of_app|]. split; [done|]. by eexists.
Qed.

Lemma export_read_failure_writes_nothing_witness :
  calls_of world0 (export_to_csv engine0 "nowhere" "nowhere.csv" world0).2
    = [EvReadSqlTable "nowhere"]
  ∧ fs (export_to_csv engine0 "nowhere" "nowhere.csv" world0).2 = fs world0.
Proof.
  destruct (export_read_failure_writes_nothing engine0 "nowhere" "nowhere.csv"
              world0 (or_introl eq_refl)) as (Hc & Hfs & _).
  split; [exact Hc | exact Hfs].
Defined.

(** X5.  A second export right after a successful one writes the same file
    again: the file system is as the first export left it, and the
    database as it was before both. *)
Theorem export_twice_same_file (engine : Engine)
    (table_name csv_file_path : string) (w : World) :
  (export_try engine table_name csv_file_path w).1 = Return tt →
  (export_try engine table_name csv_file_path
     (export_to_csv engine table_name csv_file_path w).2).1 = Return tt →
  fs (export_to_csv engine table_name csv_file_path
        (export_to_csv engine table_name csv_file_path w).2).2
  = fs (export_to_csv engine table_name csv_file_path w).2
  ∧ db (export_to_csv engine table_name csv_file_path
          (export_to_csv engine table_name csv_file_path w).2).2
    = db w.
Proof.
  intros H1 H2.
  destruct (export_try engine table_name csv_file_path w) as [o w1] eqn:E1.
  simpl in H1. subst o.
  rewrite (export_to_csv_return _ _ _ _ _ E1) in *. simpl in *.
  apply export_try_Return in E1 as (T & HT & _ & ->).
  destruct (export_try engine table_name csv_file_path
              (exported_world table_name csv_file_path T w)) as [o w2] eqn:E2.
  simpl in H2. subst o.
  rewrite (export_to_csv_return _ _ _ _ _ E2).
  apply export_try_Return in E2 as (T' & HT' & _ & ->). simpl in *.
  assert (T' = T) as -> by congruence.
  split; [|done]. by rewrite insert_insert_eq.
Qed.

Lemma export_twice_same_file_witness :
  fs (export_to_csv engine0 "orders" "orders.csv"
        (export_to_csv engine0 "orders" "orders.csv" world0).2).2
  = fs (export_to_csv engine0 "orders" "orders.csv" world0).2
  ∧ db (export_to_csv engine0 "orders" "orders.csv"
          (export_to_csv engine0 "orders" "orders.csv" world0).2).2
    = db world0.
Proof.
  apply (export_twice_same_file engine0 "orders" "orders.csv" world0);
    reflexivity.
Defined.

(** ** Import: what it leaves *)







(** ** Import: what a success means *)




(** X10.  The [id] values of the CSV file never reach the table.  Two
    files that differ only in their [id] column (its values, or whether it
    is there at all) import alike: where the import of one succeeds, so
    does the import of the other, and the database is the same after
    both. *)
Theorem import_ignores_csv_id (engine : Engine)
    (table_name csv_file_path : string) (w : World)
    (header header' : list string) (records records' : list (list Scalar)) :
  fs w !! csv_file_path = Some (CsvFile header records) →
  header' ≠ [] →
  drop_columns (mkDataFrame header records) ["id"]
  = drop_columns (mkDataFrame header' records') ["id"] →
  (import_try engine table_name csv_file_path w).1 = Return tt →
  let w' := set_fs (<[csv_file_path := CsvFile header' records']> (fs w)) w in
  (import_try engine table_name csv_file_path w').1 = Return tt
  ∧ db (import_from_csv engine table_name csv_file_path w').2
    = db (import_from_csv engine table_name csv_file_path w).2.
Proof.
  intros Hf Hh' Hdrop Hok w'.
  destruct (import_try engine table_name csv_file_path w) as [o w1] eqn:E.
  simpl in Hok. subst o.
  rewrite (import_from_csv_return _ _ _ _ _ E).
  apply import_try_Return in E
    as (T & h & recs & HT & Hf0 & _ & Hcols & Hnf & ->).
  assert (h = header ∧ recs = records) as [-> ->] by (split; congruence).
  assert (import_try engine table_name csv_file_path w'
          = (Return tt,
             loaded_world table_name csv_file_path (clear_rows T)
               (drop_columns (mkDataFrame header' records') ["id"])
               (cleared_world engine table_name T w'))) as E'.
  { apply import_try_ok; try done.
    - subst w'. simpl. by rewrite lookup_insert_eq.
    - by rewrite <- Hdrop. }
  rewrite (import_from_csv_return _ _ _ _ _ E'). rewrite E'. simpl.
  split; [done|]. by rewrite Hdrop.
Qed.

Lemma import_ignores_csv_id_witness :
  db (import_from_csv engine0 "orders" "in.csv"
        (set_fs (<["in.csv" := CsvFile ["id"; "sku"; "qty"]
                                 [[Int 41; Str "X2"; Int 7]]]> ∅) world0)).2
  = db (import_from_csv engine0 "orders" "in.csv"
          (set_fs {["in.csv" := CsvFile ["sku"; "qty"] [[Str "X2"; Int 7]]]}
             world0)).2.
Proof.
  destruct (import_ignores_csv_id engine0 "orders" "in.csv"
              (set_fs {["in.csv" := CsvFile ["sku"; "qty"] [[Str "X2"; Int 7]]]}
                 world0)
              ["sku"; "qty"] ["id"; "sku"; "qty"]
              [[Str "X2"; Int 7]] [[Int 41; Str "X2"; Int 7]])
    as [_ Hdb]; [reflexivity | discriminate | reflexivity | reflexivity |].
  simpl in Hdb. rewrite <- Hdb. reflexivity.
Defined.



(** ** The connection and its transaction *)

(** X12.  The clearing is applied on commit only.  When the [DELETE FROM]
    ran and the commit then fails, the block is left without the deletion
    taking effect: the table keeps its rows, no transaction stays open,
    the CSV file is never read, and the error of the commit is what is
    logged. *)
Theorem failed_commit_keeps_rows (engine : Engine)
    (table_name csv_file_path : string) (w : World) (T : Table) (e : Exn) :
  db w !! table_name = Some T → no_fault_for 2 w →
  fault_plan w (length (trace w) + 2) = Some e →
  db (import_from_csv engine table_name csv_file_path w).2 = db w
  ∧ session (import_from_csv engine table_name csv_file_path w).2 = None
  ∧ calls_of w (import_from_csv engine table_name csv_file_path w).2
    = [EvConnect (url engine); EvExecute (DeleteFrom table_name); EvCommit]
  ∧ log (import_from_csv engine table_name csv_file_path w).2
    = log w ++ [(ERROR, failure_message (category_of e) csv_file_path (str e))].
Proof.
  intros HT Hnf He.
  pose proof (no_fault_for_at 2 w 0 Hnf ltac:(lia) [] eq_refl) as H0.
  pose proof (no_fault_for_at 2 w 1 Hnf ltac:(lia) [EvConnect (url engine)]
                eq_refl) as H1.
  rewrite app_nil_r in H0.
  assert (import_try engine table_name csv_file_path w
          = (Raise e,
             set_session None
               (set_trace (trace w ++ [EvConnect (url engine);
                                       EvExecute (DeleteFrom table_name);
                                       EvCommit]) w))) as E.
  { unfold_run. simpl. rewrite H0. simpl. rewrite H1. simpl. rewrite HT.
    simpl. rewrite !length_app. simpl. rewrite <- Nat.add_assoc. simpl.
    rewrite He. simpl. unfold set_session, set_trace. simpl.
    by rewrite <- !app_assoc. }
  rewrite (import_from_csv_raise _ _ _ _ _ _ E). simpl.
  do 2 (split; [done|]). split; [by apply calls_of_app|done].
Qed.

Lemma failed_commit_keeps_rows_witness :
  db (import_from_csv engine0 "orders" "in.csv"
        (world_with "in.csv" EmptyFile 2
           (mkExn OperationalError "server closed the connection"))).2
    !! "orders" = Some orders
  ∧ log (import_from_csv engine0 "orders" "in.csv"
           (world_with "in.csv" EmptyFile 2
              (mkExn OperationalError "server closed the connection"))).2
    = [(ERROR, "Database connection error: server closed the connection")].
Proof.
  destruct (failed_commit_keeps_rows engine0 "orders" "in.csv"
              (world_with "in.csv" EmptyFile 2
                 (mkExn OperationalError "server closed the connection"))
              orders
              (mkExn OperationalError "server closed the connection"))
    as (Hdb & _ & _ & Hlog).
  - reflexivity.
  - intros i Hi. simpl. case_decide; [lia | reflexivity].
  - reflexivity.
  - rewrite Hdb, Hlog. split; reflexivity.
Defined.

Lemma clear_block_session engine t w :
  fault_plan w (length (trace w)) = None →
  session (clear_block engine t w).2 = None.
Proof.
  intros H0. unfold clear_block. unfold_run. simpl. rewrite H0. simpl.
  match goal with
  | |- session (let (_, _) := ?X in _).2 = _ => by destruct X
  end.
Qed.

Lemma load_block_session engine t p w :
  session (load_block engine t p w).2 = session w.
Proof.
  destruct (load_block engine t p w) as [o w1] eqn:E.
  destruct (outcome_unit_cases o) as [->|[e ->]]; simpl.
  - revert E. unfold load_block. unfold_run. simpl.
    destruct (fault_plan w _); simpl; [discriminate|].
    destruct (fs w !! p) as [[|raw|[|c h] recs]|]; simpl; try discriminate.
    destruct (fault_plan w _); simpl; [discriminate|].
    destruct (db w !! t); simpl.
    + destruct (forallb _ _); [|discriminate]. by intros [= <-].
    + by intros [= <-].
  - by apply load_block_Raise in E as (_ & ? & _).
Qed.

(** X13.  Once it has connected, an import leaves no transaction open,
    however it ends: the [with] block closes the connection on every way
    out, and what follows the block opens none. *)
Theorem import_releases_connection (engine : Engine)
    (table_name csv_file_path : string) (w : World) :
  fault_plan w (length (trace w)) = None →
  session (import_from_csv engine table_name csv_file_path w).2 = None.
Proof.
  intros H0.
  pose proof (clear_block_session engine table_name w H0) as Hc.
  assert (session (import_try engine table_name csv_file_path w).2 = None)
    as Hs.
  { rewrite import_try_run.
    destruct (clear_block engine table_name w) as [[[]|e] w0]; simpl in *.
    - by rewrite load_block_session.
    - done. }
  destruct (import_try engine table_name csv_file_path w) as [o w1] eqn:E.
  destruct (outcome_unit_cases o) as [->|[e ->]].
  - by rewrite (import_from_csv_return _ _ _ _ _ E).
  - by rewrite (import_from_csv_raise _ _ _ _ _ _ E).
Qed.

Lemma import_releases_connection_witness :
  session (import_from_csv engine0 "orders" "in.csv"
             (mkWorld {["orders" := orders]} (Some ∅) ∅ [] [] no_fault any_url
              same_cells)).2
  = None.
Proof.
  apply (import_releases_connection engine0 "orders" "in.csv"
           (mkWorld {["orders" := orders]} (Some ∅) ∅ [] [] no_fault any_url
              same_cells)).
  reflexivity.
Defined.

(** ** Export then import, and [main] *)




(** X15.  An import started by [main] with a file path, once
    [get_db_connection] gave an engine, first connects to the URL made of
    the five connection parameters, and then makes at most the delete,
    the commit, the read of the given path and the load, in that order. *)
Theorem main_import_calls (args : Args) (w : World) (q : string)
    (engine : Engine) :
  arg_operation args = OpImport → arg_csv_file args = Some q → q ≠ "" →
  (main_engine args w).1 = Return engine →
  ∃ rest,
    calls_of w (main args w).2
    = EvConnect ("postgresql://" +:+ arg_db_user args +:+ ":"
                 +:+ arg_db_password args +:+ "@" +:+ arg_db_host args
                 +:+ ":" +:+ arg_db_port args +:+ "/" +:+ arg_db_name args)
      :: rest
    ∧ rest `prefix_of`
        [EvExecute (DeleteFrom (arg_table_name args)); EvCommit;
         EvReadCsv q; EvToSql (arg_table_name args)].
Proof.
  intros Hop Hcsv Hq He. rewrite (main_Return args w engine He).
  assert (url engine
          = "postgresql://" +:+ arg_db_user args +:+ ":"
            +:+ arg_db_password args +:+ "@" +:+ arg_db_host args
            +:+ ":" +:+ arg_db_port args +:+ "/" +:+ arg_db_name args) as Hurl.
  { rewrite main_engine_run in He. destruct (url_error w _); simpl in He;
      [discriminate|]. by injection He as <-. }
  unfold main_operation. rewrite Hop, Hcsv. simpl.
  rewrite bool_decide_eq_false_2 by done. simpl.
  destruct (import_from_csv_calls engine (arg_table_name args) q w)
    as (evs & Htr & Hne & [k Hk]).
  rewrite (calls_of_app _ _ _ Htr).
  destruct evs as [|ev evs]; [done|].
  unfold import_calls in Hk. simpl in Hk. injection Hk as <- Hk.
  rewrite <- Hurl. exists evs. split; [done|]. by exists k.
Qed.

Lemma main_import_calls_witness :
  ∃ rest,
    calls_of world0 (main (args_import (Some "in.csv")) world0).2
    = EvConnect "postgresql://u:p@localhost:5432/mydb" :: rest
    ∧ rest `prefix_of`
        [EvExecute (DeleteFrom "orders"); EvCommit; EvReadCsv "in.csv";
         EvToSql "orders"].
Proof.
  apply (main_import_calls (args_import (Some "in.csv")) world0 "in.csv"
           engine0);
    [reflexivity | reflexivity | discriminate | reflexivity].
Defined.

Lemma drop_columns_without_id (cols : list string)
    (rows : list (list Scalar)) :
  "id" ∉ cols → Forall (λ r, length r = length cols) rows →
  drop_columns (mkDataFrame cols rows) ["id"] = mkDataFrame cols rows.
Proof.
  intros Hid Hrows. unfold drop_columns. simpl.
  assert (Forall (λ c, c ∉ ["id"]) cols) as Hkeep.
  { apply Forall_forall. intros c Hc ->%list_elem_of_singleton. done. }
  f_equal.
  - by apply select_keep_all.
  - rewrite <- (list_fmap_id rows) at 2. apply list_fmap_ext.
    intros i r Hr. simpl. apply select_keep_all; [done|].
    eapply Forall_lookup_1 in Hrows; done.
Qed.

(** X16.  A table without an [id] column is exported as it is: when its
    rows have one cell per column and the environment lets the two calls
    through, [to_csv] is given the whole table, nothing dropped and
    nothing added: the file holds the table's columns as header and, as
    records, the table's rows as CSV text holds them, which are the rows
    themselves when they read back as they were written. *)
Theorem export_without_id_is_verbatim (engine : Engine)
    (table_name csv_file_path : string) (w : World) (T : Table) :
  db w !! table_name = Some T → table_wf T → "id" ∉ t_columns T →
  no_fault_for 2 w →
  fs (export_to_csv engine table_name csv_file_path w).2 !! csv_file_path
  = Some (CsvFile (t_columns T)
            (csv_view w (mkDataFrame (t_columns T) (t_rows T))))
  ∧ (csv_view w (mkDataFrame (t_columns T) (t_rows T)) = t_rows T →
     fs (export_to_csv engine table_name csv_file_path w).2 !! csv_file_path
     = Some (CsvFile (t_columns T) (t_rows T))).
Proof.
  intros HT [_ Hrows] Hid Hnf.
  rewrite (export_to_csv_return _ _ _ _ _
             (export_try_ok _ _ csv_file_path w T HT Hnf)).
  simpl. rewrite lookup_insert_eq.
  rewrite (drop_columns_without_id _ _ Hid Hrows). unfold csv_of. simpl.
  pose proof (drop_columns_without_id _ _ Hid Hrows) as Hd.
  unfold drop_columns in Hd. simpl in Hd. injection Hd as -> _.
  split; [done|]. by intros ->.
Qed.

Lemma export_without_id_is_verbatim_witness :
  fs (export_to_csv engine0 "prices" "prices.csv"
        (mkWorld {["prices" := mkTable ["sku"; "price"]
                                 [[Str "X1"; Int 9]; [Str "X2"; Null]] 1]}
           None ∅ [] [] no_fault any_url same_cells)).2 !! "prices.csv"
  = Some (CsvFile ["sku"; "price"] [[Str "X1"; Int 9]; [Str "X2"; Null]]).
Proof.
  destruct (export_without_id_is_verbatim engine0 "prices" "prices.csv"
           (mkWorld {["prices" := mkTable ["sku"; "price"]
                                    [[Str "X1"; Int 9]; [Str "X2"; Null]] 1]}
              None ∅ [] [] no_fault any_url same_cells)
           (mkTable ["sku"; "price"] [[Str "X1"; Int 9]; [Str "X2"; Null]] 1))
    as [H _].
  - reflexivity.
  - split; [apply (bool_decide_unpack _); by vm_compute | by repeat constructor].
  - apply (bool_decide_unpack _). by vm_compute.
  - done.
  - exact H.
Defined.


